(** * The DingTalk sink of kube-eventer (sinks/dingtalk/dingtalk.go)

    A shallow embedding of the sink: the severity classifier, the
    namespace and kind allow-lists, the message renderer, the delivery
    routine [Ding], the batch loop [ExportEvents] and the constructor
    [NewDingTalkSink], followed by the properties of the specification
    that concern them.

    Go values are modelled as follows.
    - [int] is [Z]; the numbers that occur are lengths, status codes and
      the scores 0, 1 and 2.
    - [string] is [string] (a sequence of bytes).
    - A slice is [option (list A)]: [None] is the nil slice, [Some l] a
      non-nil slice with the elements [l].  The code compares slices
      with nil, so the two empty slices are kept apart.
    - A pointer or interface value that the code compares with nil or
      dereferences after a call ([*http.Response], [error],
      [*DingTalkMsg]) is an [option].
    - A run-time panic (nil dereference, index out of range) is an
      explicit [Panicked] outcome. *)

From Stdlib Require Import ZArith String Ascii List Lia.
From stdpp Require Import base option list strings gmap.

Local Open Scope string_scope.
Local Open Scope Z_scope.

(** ** Go run-time values *)

Inductive RuntimeError :=
| NilDereference
| IndexOutOfRange (index : nat) (length : Z).

Inductive Outcome (A : Type) :=
| Returned (a : A)
| Panicked (p : RuntimeError).
Arguments Returned {A} a.
Arguments Panicked {A} p.

#[global] Instance Outcome_ret : MRet Outcome := fun A a => Returned a.
#[global] Instance Outcome_bind : MBind Outcome := fun A B k m =>
  match m with
  | Returned a => k a
  | Panicked p => Panicked p
  end.

Definition slice (A : Type) : Type := option (list A).

Definition len {A} (s : slice A) : Z :=
  match s with
  | None => 0
  | Some l => Z.of_nat (length l)
  end.

(** The elements a [for _, x := range s] loop visits. *)
Definition elems {A} (s : slice A) : list A := default [] s.

(** [s[i]], which panics out of range. *)
Definition index {A} (s : slice A) (i : nat) : Outcome A :=
  match elems s !! i with
  | Some x => Returned x
  | None => Panicked (IndexOutOfRange i (len s))
  end.

(** A non-nil [error] value, observed through its [Error()] method. *)
Record error_value := { Error : string }.

(** [p.f] on a pointer, [v.m()] on an interface value: panics on nil. *)
Definition deref {A B} (p : option A) (f : A -> B) : Outcome B :=
  match p with
  | Some x => Returned (f x)
  | None => Panicked NilDereference
  end.

Definition nl : string := String "010"%char EmptyString.
Definition dq : string := String "034"%char EmptyString.

(** ** The packages the sink imports *)

Module metav1.
(** A timestamp; the sink only ever takes its canonical string form,
    [LastTimestamp.String()]. *)
Record Time := { Time_String : string }.
End metav1.

Module v1.
Record ObjectReference := { Kind : string }.

Record Event := {
  Namespace : string;
  Name : string;
  InvolvedObject : ObjectReference;
  Reason : string;
  Message : string;
  LastTimestamp : metav1.Time;
  Type_ : string
}.

(** Modelled from the spec: the two event types of k8s.io/api/core/v1,
    whose declarations are not part of this package (section 4.1:
    "Warning" and "Normal"). *)
Definition EventTypeNormal : string := "Normal".
Definition EventTypeWarning : string := "Warning".
End v1.

Module core.
Record EventBatch := {
  Timestamp : metav1.Time;
  Events : list v1.Event
}.
End core.

Module url.
(** [url.Values], a [map[string][]string]; looking up a missing key
    gives the nil slice, which is what [!!] returns. *)
Abbreviation Values := (gmap string (list string)).

(** A parsed URL.  [Query] holds what [uri.Query()] returns. *)
Record URL := {
  Host : string;
  Path : string;
  Query : Values
}.
End url.

Module http.
Record Response := { StatusCode : Z }.
Definition StatusOK : Z := 200.
End http.

Module time.
(** Durations count nanoseconds. *)
Definition Millisecond : Z := 1000000.
End time.

(** [strings.Split(s, sep)] for a separator of one byte: the pieces of
    [s] between the occurrences of [sep], in order; always at least one
    piece. *)
Fixpoint strings_Split (s : string) (sep : ascii) : list string :=
  match s with
  | EmptyString => [EmptyString]
  | String c rest =>
      if Ascii.eqb c sep then EmptyString :: strings_Split rest sep
      else match strings_Split rest sep with
           | piece :: pieces => String c piece :: pieces
           | [] => [String c EmptyString]
           end
  end.

(** ** Constants and types of the package *)

Definition DINGTALK_SINK : string := "DingTalkSink".
Definition WARNING : Z := 2.
Definition NORMAL : Z := 1.
Definition DEFAULT_MSG_TYPE : string := "text".
Definition CONTENT_TYPE_JSON : string := "application/json".
Definition LABE_TEMPLATE : string := Eval cbv in "%s" +:+ nl.

Definition MSG_TEMPLATE : string := Eval cbv in
  "Level:%s " +:+ nl +:+ "Kind:%s " +:+ nl +:+ "Namespace:%s " +:+ nl +:+
  "Name:%s " +:+ nl +:+ "Reason:%s " +:+ nl +:+ "Timestamp:%s " +:+ nl +:+
  "Message:%s".

Record DingTalkText := { Content : string }.

Record DingTalkMsg := {
  MsgType : string;
  Text : DingTalkText
}.

Record DingTalkSink := {
  Endpoint : string;
  Namespaces : slice string;
  Kinds : slice string;
  Token : string;
  Level : Z;
  Labels : slice string
}.

(** ** The world outside the package *)

Inductive Severity := SevWarning | SevError.

Inductive Arg :=
| AString (s : string)
| AInt (n : Z)
| AEvent (e : v1.Event)
| AMsg (m : DingTalkMsg).

(** What a run does to the outside, in the order it happens. *)
Inductive Effect :=
| HttpPost (url contentType body : string)
| Klog (sev : Severity) (format : string) (args : list Arg)
| Sleep (d : Z).

(** The library code the sink calls and whose result it cannot control:
    - [http_Post] is [http.Post]: given the URL, the content type and
      the body it answers with a response pointer and an error, either
      of which may be nil, and moves the world on;
    - [json_string] is the JSON string literal encoding/json writes for
      a Go string;
    - [fmt_directive] is what [fmt.Sprintf] writes from a ['%'] that is
      not followed by [s] onwards, given the format after the ['%'] and
      the operands not yet used. *)
Class Runtime := {
  World : Type;
  http_Post : string -> string -> string -> World ->
              (option http.Response * option error_value) * World;
  json_string : string -> string;
  fmt_directive : string -> list string -> string
}.

Record Run (W A : Type) := {
  outcome : Outcome A;
  effects : list Effect;
  world : W
}.
Arguments outcome {W A} r.
Arguments effects {W A} r.
Arguments world {W A} r.

Section Sink.
Context {rt : Runtime}.

(** A Go computation: from a world to an outcome, the effects performed
    and the world after them.  A panic keeps the effects performed before
    it and stops. *)
Definition Go (A : Type) : Type := World -> Run World A.

#[global] Instance Go_ret : MRet Go := fun A a w =>
  {| outcome := Returned a; effects := []; world := w |}.

#[global] Instance Go_bind : MBind Go := fun A B k m w =>
  let r := m w in
  match outcome r with
  | Returned a =>
      let r' := k a (world r) in
      {| outcome := outcome r';
         effects := effects r ++ effects r';
         world := world r' |}
  | Panicked p =>
      {| outcome := Panicked p; effects := effects r; world := world r |}
  end.

Definition perform (e : Effect) : Go unit := fun w =>
  {| outcome := Returned tt; effects := [e]; world := w |}.

(** A pure computation that may panic, run inside [Go]. *)
Definition lift {A} (o : Outcome A) : Go A := fun w =>
  {| outcome := o; effects := []; world := w |}.

Definition klog_Warningf (format : string) (args : list Arg) : Go unit :=
  perform (Klog SevWarning format args).

Definition klog_Errorf (format : string) (args : list Arg) : Go unit :=
  perform (Klog SevError format args).

Definition time_Sleep (d : Z) : Go unit := perform (Sleep d).

(** [http.Post]: the request goes out, then the world answers. *)
Definition http_Post_call (u contentType body : string)
  : Go (option http.Response * option error_value) := fun w =>
  let '(answer, w') := http_Post u contentType body w in
  {| outcome := Returned answer;
     effects := [HttpPost u contentType body];
     world := w' |}.

(** *** fmt.Sprintf with string operands *)

Fixpoint fmt_operands (a : list string) : string :=
  match a with
  | [] => ""
  | [x] => "string=" +:+ x
  | x :: a' => "string=" +:+ x +:+ ", " +:+ fmt_operands a'
  end.

(** Operands left over at the end of the format are reported. *)
Definition fmt_extra (a : list string) : string :=
  match a with
  | [] => ""
  | _ :: _ => "%!(EXTRA " +:+ fmt_operands a +:+ ")"
  end.

(** Text is copied, [%s] writes the next operand, or [%!s(MISSING)] when
    none is left; any other directive is the library's. *)
Fixpoint fmt_Sprintf (format : string) (a : list string) : string :=
  match format with
  | EmptyString => fmt_extra a
  | String c rest =>
      if Ascii.eqb c "%"%char then
        match rest with
        | String v rest' =>
            if Ascii.eqb v "s"%char then
              match a with
              | x :: a' => x +:+ fmt_Sprintf rest' a'
              | [] => "%!s(MISSING)" +:+ fmt_Sprintf rest' []
              end
            else fmt_directive rest a
        | EmptyString => fmt_directive rest a
        end
      else String c (fmt_Sprintf rest a)
  end.

(** *** encoding/json on a DingTalkMsg *)

(** [json.Marshal(msg)]: the fields in declaration order under the names
    of their tags.  Strings always encode, so the error is nil. *)
Definition json_Marshal (msg : DingTalkMsg) : string * option error_value :=
  ("{" +:+ dq +:+ "msgtype" +:+ dq +:+ ":" +:+ json_string (MsgType msg) +:+
   "," +:+ dq +:+ "text" +:+ dq +:+ ":{" +:+ dq +:+ "content" +:+ dq +:+ ":" +:+
   json_string (Content (Text msg)) +:+ "}}",
   None).

(** ** The sink *)

Definition Name (d : DingTalkSink) : string := DINGTALK_SINK.

Definition Stop (d : DingTalkSink) : Go unit := mret tt.

Definition getLevel (level : string) : Z :=
  let score := 0 in
  if String.eqb level v1.EventTypeWarning then score + 2
  else if String.eqb level v1.EventTypeNormal then score + 1
  else score.

Definition isEventLevelDangerous (d : DingTalkSink) (level : string) : bool :=
  let score := getLevel level in
  if Level d <=? score then true else false.

(** The loop of both allow-list checks: [skip] stays as it is until an
    entry equals [x]; then it becomes false and the loop breaks. *)
Fixpoint range_allowed (entries : list string) (x : string) (skip : bool) : bool :=
  match entries with
  | [] => skip
  | entry :: entries' =>
      if String.eqb entry x then false else range_allowed entries' x skip
  end.

(** One allow-list check of [Ding]: [true] when [Ding] returns at it. *)
Definition skipped (allowed : slice string) (x : string) : bool :=
  match allowed with
  | Some entries => range_allowed entries x true
  | None => false
  end.

Definition createMsgFromEvent (labels : slice string) (event : v1.Event)
  : option DingTalkMsg :=
  let template := MSG_TEMPLATE in
  let template :=
    if 0 <? len labels then
      fold_left (fun template label =>
                   fmt_Sprintf LABE_TEMPLATE [label] +:+ template)
                (elems labels) template
    else template in
  Some {| MsgType := DEFAULT_MSG_TYPE;
          Text := {| Content :=
            fmt_Sprintf template
              [v1.Type_ event; v1.Kind (v1.InvolvedObject event);
               v1.Namespace event; v1.Name event; v1.Reason event;
               metav1.Time_String (v1.LastTimestamp event);
               v1.Message event] |} |}.

Definition Ding (d : DingTalkSink) (event : v1.Event) : Go unit :=
  if skipped (Namespaces d) (v1.Namespace event) then mret tt else
  if skipped (Kinds d) (v1.Kind (v1.InvolvedObject event)) then mret tt else
  match createMsgFromEvent (Labels d) event with
  | None =>
      klog_Warningf "failed to create msg from event,because of %v" [AEvent event]
  | Some msg =>
      let '(msg_bytes, err) := json_Marshal msg in
      match err with
      | Some _ => klog_Warningf "failed to marshal msg %v" [AMsg msg]
      | None =>
          '(resp, err) ← http_Post_call
             (fmt_Sprintf "https://%s?access_token=%s" [Endpoint d; Token d])
             CONTENT_TYPE_JSON msg_bytes;
          failed ← lift (match err with
                         | Some _ => mret true
                         | None =>
                             code ← deref resp http.StatusCode;
                             mret (negb (code =? http.StatusOK))
                         end);
          if failed : bool then
            reason ← lift (deref err Error);
            code ← lift (deref resp http.StatusCode);
            klog_Errorf
              "failed to send msg to dingtalk,because of %s resp code is %d"
              [AString reason; AInt code]
          else mret tt
      end
  end.

Fixpoint range_Events (d : DingTalkSink) (events : list v1.Event) : Go unit :=
  match events with
  | [] => mret tt
  | event :: events' =>
      (if isEventLevelDangerous d (v1.Type_ event) then
         Ding d event;;
         time_Sleep (time.Millisecond * 50)
       else mret tt);;
      range_Events d events'
  end.

Definition ExportEvents (d : DingTalkSink) (batch : core.EventBatch) : Go unit :=
  range_Events d (core.Events batch).

Definition getValues (o : slice string) : Outcome (slice string) :=
  empty ← (if 1 <=? len o then
             first ← index o 0;
             mret (Z.of_nat (String.length first) =? 0)
           else mret false);
  if empty : bool then mret None
  else
    first ← index o 0;
    mret (Some (strings_Split first ","%char)).

Definition NewDingTalkSink (uri : url.URL)
  : Outcome (option DingTalkSink * option error_value) :=
  let level := WARNING in
  let endpoint :=
    if 0 <? Z.of_nat (String.length (url.Host uri))
    then url.Host uri +:+ url.Path uri else "" in
  let opts := url.Query uri in
  if 1 <=? len (opts !! "access_token") then
    token ← index (opts !! "access_token") 0;
    level ← (if 1 <=? len (opts !! "level") then
               first ← index (opts !! "level") 0;
               mret (getLevel first)
             else mret level);
    let labels : slice string :=
      if 1 <=? len (opts !! "label") then opts !! "label" else None in
    namespaces ← getValues (opts !! "namespaces");
    kinds ← getValues (opts !! "kinds");
    mret (Some {| Endpoint := endpoint; Namespaces := namespaces;
                  Kinds := kinds; Token := token; Level := level;
                  Labels := labels |},
          None)
  else
    mret (None,
          Some {| Error := "you must provide dingtalk bot access_token" |}).

End Sink.

(** ** Reading a run *)

Definition is_post (e : Effect) : bool :=
  match e with HttpPost _ _ _ => true | _ => false end.

Definition is_sleep (e : Effect) : bool :=
  match e with Sleep _ => true | _ => false end.

(** The HTTP requests and the pauses of a run, in order. *)
Definition posts (es : list Effect) : list Effect := List.filter is_post es.
Definition sleeps (es : list Effect) : list Effect := List.filter is_sleep es.

(** The requests and the pauses of a run together, in the order they
    happen; what is logged is left out. *)
Definition posts_and_sleeps (es : list Effect) : list Effect :=
  List.filter (fun e => is_post e || is_sleep e) es.

(** A string without ['%']: as part of a format it is copied as it is. *)
Fixpoint plain (s : string) : bool :=
  match s with
  | EmptyString => true
  | String c rest => negb (Ascii.eqb c "%"%char) && plain rest
  end.

(** The given strings, one per line. *)
Fixpoint lines (ls : list string) : string :=
  match ls with
  | [] => ""
  | l :: ls' => (l +:+ nl) +:+ lines ls'
  end.

(** The seven fields as the base template lays them out. *)
Definition base_text (a : list string) : string :=
  match a with
  | [level; kind; namespace; name; reason; timestamp; message] =>
      "Level:" +:+ level +:+ " " +:+ nl +:+
      "Kind:" +:+ kind +:+ " " +:+ nl +:+
      "Namespace:" +:+ namespace +:+ " " +:+ nl +:+
      "Name:" +:+ name +:+ " " +:+ nl +:+
      "Reason:" +:+ reason +:+ " " +:+ nl +:+
      "Timestamp:" +:+ timestamp +:+ " " +:+ nl +:+
      "Message:" +:+ message
  | _ => ""
  end.

(** The pause [ExportEvents] makes after a call of [Ding]. *)
Definition pause : Effect := Sleep (time.Millisecond * 50).

Section Observers.
Context {rt : Runtime}.

(** The operands [createMsgFromEvent] hands to the template. *)
Definition fields (event : v1.Event) : list string :=
  [v1.Type_ event; v1.Kind (v1.InvolvedObject event); v1.Namespace event;
   v1.Name event; v1.Reason event;
   metav1.Time_String (v1.LastTimestamp event); v1.Message event].

(** Where [Ding] posts to, and what. *)
Definition target (d : DingTalkSink) : string :=
  fmt_Sprintf "https://%s?access_token=%s" [Endpoint d; Token d].

Definition payload (d : DingTalkSink) (event : v1.Event) : string :=
  match createMsgFromEvent (Labels d) event with
  | Some msg => fst (json_Marshal msg)
  | None => ""
  end.

(** The request [Ding] sends once both allow-lists let the event through. *)
Definition request (d : DingTalkSink) (event : v1.Event) : Effect :=
  HttpPost (target d) CONTENT_TYPE_JSON (payload d event).

(** What the answer to the request makes of the rest of [Ding]: with an
    error and a response the failure is logged; with only one of them the
    log statement dereferences the missing one. *)
Definition after_answer (answer : option http.Response * option error_value)
  : Outcome unit * list Effect :=
  match answer with
  | (Some resp, None) =>
      if http.StatusCode resp =? http.StatusOK then (Returned tt, [])
      else (Panicked NilDereference, [])
  | (Some resp, Some err) =>
      (Returned tt,
       [Klog SevError
          "failed to send msg to dingtalk,because of %s resp code is %d"
          [AString (Error err); AInt (http.StatusCode resp)]])
  | (None, _) => (Panicked NilDereference, [])
  end.

(** A run that returns at once. *)
Definition idle (w : World) : Run World unit :=
  {| outcome := Returned tt; effects := []; world := w |}.

(** Both allow-lists of [Ding] let the event through. *)
Definition allowed (d : DingTalkSink) (event : v1.Event) : bool :=
  negb (skipped (Namespaces d) (v1.Namespace event)) &&
  negb (skipped (Kinds d) (v1.Kind (v1.InvolvedObject event))).

(** The namespace, kind and severity filters all let the event through. *)
Definition qualifies (d : DingTalkSink) (event : v1.Event) : bool :=
  isEventLevelDangerous d (v1.Type_ event) && allowed d event.

End Observers.

(** ** Sample worlds, for running the sink *)

(** The JSON literal of a string of printable ASCII and line feeds. *)
Fixpoint sample_escape (s : string) : string :=
  match s with
  | EmptyString => EmptyString
  | String c rest =>
      if Ascii.eqb c "010"%char then "\n" +:+ sample_escape rest
      else if Ascii.eqb c "034"%char then "\" +:+ dq +:+ sample_escape rest
      else if Ascii.eqb c "\"%char then "\\" +:+ sample_escape rest
      else String c (sample_escape rest)
  end.

(** A destination that gives every request the same answer and counts
    the requests it has seen. *)
Definition server (answer : option http.Response * option error_value) : Runtime :=
  {| World := nat;
     http_Post := fun _ _ _ n => (answer, S n);
     json_string := fun s => dq +:+ sample_escape s +:+ dq;
     fmt_directive := fun rest _ => "%" +:+ rest |}.

Definition status (code : Z) : option http.Response * option error_value :=
  (Some {| http.StatusCode := code |}, None).

Definition unreachable : option http.Response * option error_value :=
  (None, Some {| Error := "dial tcp: connection refused" |}).

Definition pod_warning : v1.Event :=
  {| v1.Namespace := "default"; v1.Name := "web-0";
     v1.InvolvedObject := {| v1.Kind := "Pod" |};
     v1.Reason := "BackOff"; v1.Message := "Back-off restarting failed container";
     v1.LastTimestamp := {| metav1.Time_String := "2019-06-01 10:00:00 +0000 UTC" |};
     v1.Type_ := "Warning" |}.

Definition node_normal : v1.Event :=
  {| v1.Namespace := "default"; v1.Name := "node-1";
     v1.InvolvedObject := {| v1.Kind := "Node" |};
     v1.Reason := "NodeReady"; v1.Message := "Node node-1 status is now: NodeReady";
     v1.LastTimestamp := {| metav1.Time_String := "2019-06-01 10:00:05 +0000 UTC" |};
     v1.Type_ := "Normal" |}.

Definition open_sink : DingTalkSink :=
  {| Endpoint := "oapi.dingtalk.com/robot/send"; Namespaces := None;
     Kinds := None; Token := "tok123"; Level := WARNING; Labels := None |}.

Definition node_warning : v1.Event :=
  {| v1.Namespace := "default"; v1.Name := "node-1";
     v1.InvolvedObject := {| v1.Kind := "Node" |};
     v1.Reason := "NodeNotReady"; v1.Message := "Node node-1 status is now: NodeNotReady";
     v1.LastTimestamp := {| metav1.Time_String := "2019-06-01 10:00:09 +0000 UTC" |};
     v1.Type_ := "Warning" |}.

(** A sink that only lets the namespace ns-a through. *)
Definition ns_a_sink : DingTalkSink :=
  {| Endpoint := "oapi.dingtalk.com/robot/send"; Namespaces := Some ["ns-a"];
     Kinds := None; Token := "tok123"; Level := WARNING; Labels := None |}.

(** A sink whose namespace allow-list is a slice without entries,
    [[]string{}]. *)
Definition no_entry_sink : DingTalkSink :=
  {| Endpoint := "oapi.dingtalk.com/robot/send"; Namespaces := Some [];
     Kinds := None; Token := "tok123"; Level := WARNING; Labels := None |}.

Definition batch_of (events : list v1.Event) : core.EventBatch :=
  {| core.Timestamp := {| metav1.Time_String := "2019-06-01 10:00:10 +0000 UTC" |};
     core.Events := events |}.

(** The URI of the usage note above [DingTalkSink]:
    https://oapi.dingtalk.com/robot/send?access_token=tok123&level=Warning&label=cluster-1 *)
Definition usage_uri : url.URL :=
  {| url.Host := "oapi.dingtalk.com"; url.Path := "/robot/send";
     url.Query := {[ "access_token" := ["tok123"]; "level" := ["Warning"];
                     "label" := ["cluster-1"] ]} |}.

(** ...?access_token=tok123&level=Info&namespaces=default&kinds=Pod *)
Definition info_uri : url.URL :=
  {| url.Host := "oapi.dingtalk.com"; url.Path := "/robot/send";
     url.Query := {[ "access_token" := ["tok123"]; "level" := ["Info"];
                     "namespaces" := ["default"]; "kinds" := ["Pod"] ]} |}.

(** The sink the constructor builds from [info_uri]. *)
Definition info_sink : DingTalkSink :=
  {| Endpoint := "oapi.dingtalk.com/robot/send"; Namespaces := Some ["default"];
     Kinds := Some ["Pod"]; Token := "tok123"; Level := 0; Labels := None |}.

(** ...?access_token=tok123&level=Normal&label=foo&namespaces=default&kinds=Pod *)
Definition normal_uri : url.URL :=
  {| url.Host := "oapi.dingtalk.com"; url.Path := "/robot/send";
     url.Query := {[ "access_token" := ["tok123"]; "level" := ["Normal"];
                     "label" := ["foo"]; "namespaces" := ["default"];
                     "kinds" := ["Pod"] ]} |}.

(** The sink the constructor builds from [normal_uri]. *)
Definition normal_sink : DingTalkSink :=
  {| Endpoint := "oapi.dingtalk.com/robot/send"; Namespaces := Some ["default"];
     Kinds := Some ["Pod"]; Token := "tok123"; Level := 1;
     Labels := Some ["foo"] |}.

(** ...?level=Warning&label=cluster-1, without a token. *)
Definition no_token_uri : url.URL :=
  {| url.Host := "oapi.dingtalk.com"; url.Path := "/robot/send";
     url.Query := {[ "level" := ["Warning"]; "label" := ["cluster-1"] ]} |}.

(** * Properties *)

Section Properties.
Context {rt : Runtime}.

(** ** The severity classifier *)

Lemma getLevel_cases (level : string) :
  getLevel level = 2 /\ level = "Warning" \/
  getLevel level = 1 /\ level = "Normal" \/
  getLevel level = 0 /\ level <> "Warning" /\ level <> "Normal".
Proof.
  unfold getLevel, v1.EventTypeWarning, v1.EventTypeNormal.
  destruct (String.eqb_spec level "Warning") as [-> | Hw]; [left; done |].
  destruct (String.eqb_spec level "Normal") as [-> | Hn]; [right; left; done |].
  right; right; done.
Qed.

Lemma getLevel_nonneg (level : string) : 0 <= getLevel level.
Proof. destruct (getLevel_cases level) as [[-> _] | [[-> _] | [-> _]]]; lia. Qed.

(** C8: the classifier gives 2 for "Warning", 1 for "Normal" and 0 for
    every other string; being a function on all strings, it has a value
    on each of them. *)
Theorem getLevel_spec :
  getLevel "Warning" = 2 /\
  getLevel "Normal" = 1 /\
  forall level : string,
    level <> "Warning" -> level <> "Normal" -> getLevel level = 0.
Proof.
  split; [reflexivity | split; [reflexivity |]].
  intros level Hw Hn.
  destruct (getLevel_cases level) as [[_ ->] | [[_ ->] | [-> _]]]; done.
Qed.

(** ** The allow-lists *)

Lemma range_allowed_true (entries : list string) (x : string) :
  range_allowed entries x true = true <-> x ∉ entries.
Proof.
  induction entries as [| entry entries IH]; simpl.
  - split; [intros _; apply not_elem_of_nil | done].
  - destruct (String.eqb_spec entry x) as [-> | Hne].
    + split; [done | intros Hnot; exfalso; apply Hnot; left].
    + rewrite IH, not_elem_of_cons. split; [intros H; split; [congruence | exact H] | intros [_ H]; exact H].
Qed.

Lemma skipped_true (entries : slice string) (x : string) :
  skipped entries x = true <->
  exists l : list string, entries = Some l /\ x ∉ l.
Proof.
  destruct entries as [l |]; simpl.
  - rewrite range_allowed_true. split.
    + intros H. exists l. split; [reflexivity | exact H].
    + intros (l' & Heq & H). injection Heq as ->. exact H.
  - split; [discriminate | intros (l' & Heq & _); discriminate].
Qed.

Lemma skipped_nil (x : string) : skipped None x = false.
Proof. reflexivity. Qed.

(** ** One delivery *)

Lemma createMsgFromEvent_Some (labels : slice string) (event : v1.Event) :
  exists content : string,
    createMsgFromEvent labels event =
    Some {| MsgType := "text"; Text := {| Content := content |} |}.
Proof. unfold createMsgFromEvent. eexists. reflexivity. Qed.

Lemma Ding_run (d : DingTalkSink) (event : v1.Event) (w : World) :
  Ding d event w =
  if allowed d event then
    let '(answer, w') := http_Post (target d) CONTENT_TYPE_JSON (payload d event) w in
    {| outcome := fst (after_answer answer);
       effects := request d event :: snd (after_answer answer);
       world := w' |}
  else idle w.
Proof.
  unfold Ding, allowed, request, payload, target, idle.
  destruct (skipped (Namespaces d) _); [reflexivity |].
  destruct (skipped (Kinds d) _); [reflexivity |].
  destruct (createMsgFromEvent_Some (Labels d) event) as [content ->].
  cbn [negb andb json_Marshal fst snd].
  unfold mbind, Go_bind, http_Post_call.
  destruct (http_Post _ _ _ w) as [[resp err] w'].
  destruct resp as [resp |], err as [err |]; cbn;
    try destruct (http.StatusCode resp =? http.StatusOK); reflexivity.
Qed.


(** ** The renderer *)

Lemma append_cons (c : ascii) (s t : string) :
  String c s +:+ t = String c (s +:+ t).
Proof. reflexivity. Qed.

Lemma append_nil_r (s : string) : s +:+ "" = s.
Proof.
  induction s as [| c s IH]; [reflexivity |].
  rewrite append_cons, IH. reflexivity.
Qed.

Lemma append_assoc (s t u : string) : (s +:+ t) +:+ u = s +:+ t +:+ u.
Proof.
  induction s as [| c s IH]; [reflexivity |].
  rewrite !append_cons, IH. reflexivity.
Qed.

Lemma plain_app (s t : string) : plain (s +:+ t) = plain s && plain t.
Proof.
  induction s as [| c s IH]; [reflexivity |].
  rewrite append_cons. simpl. rewrite IH. apply andb_assoc.
Qed.

Lemma plain_lines (ls : list string) :
  forallb plain ls = true -> plain (lines ls) = true.
Proof.
  induction ls as [| l ls IH]; simpl; [reflexivity |].
  intros [Hl Hls]%andb_prop.
  rewrite !plain_app, Hl, (IH Hls). reflexivity.
Qed.

(** Text without directives is copied in front of the rest. *)
Lemma fmt_Sprintf_plain (s format : string) (a : list string) :
  plain s = true ->
  fmt_Sprintf (s +:+ format) a = s +:+ fmt_Sprintf format a.
Proof.
  induction s as [| c s IH]; [reflexivity |].
  rewrite !append_cons. simpl.
  intros [Hc Hs]%andb_prop.
  apply negb_true_iff in Hc. rewrite Hc, (IH Hs). reflexivity.
Qed.

Lemma fmt_Sprintf_label (label : string) :
  fmt_Sprintf LABE_TEMPLATE [label] = label +:+ nl.
Proof. reflexivity. Qed.

Lemma fmt_Sprintf_base (a1 a2 a3 a4 a5 a6 a7 : string) :
  fmt_Sprintf MSG_TEMPLATE [a1; a2; a3; a4; a5; a6; a7] =
  base_text [a1; a2; a3; a4; a5; a6; a7].
Proof.
  unfold base_text. cbn. rewrite append_nil_r. reflexivity.
Qed.

Lemma lines_app (ls ls' : list string) :
  lines (ls ++ ls') = lines ls +:+ lines ls'.
Proof.
  induction ls as [| l ls IH]; cbn [app lines]; [reflexivity |].
  rewrite IH, !append_assoc. reflexivity.
Qed.

(** The loop over the labels leaves the label lines, last label first,
    in front of the template it started from. *)
Lemma label_loop (labels : list string) (template : string) :
  fold_left (fun template label =>
               fmt_Sprintf LABE_TEMPLATE [label] +:+ template)
            labels template =
  lines (rev labels) +:+ template.
Proof.
  revert template.
  induction labels as [| label labels IH]; intros template;
    cbn [fold_left rev]; [reflexivity |].
  rewrite IH, fmt_Sprintf_label, lines_app.
  cbn [lines]. rewrite append_nil_r, !append_assoc. reflexivity.
Qed.

Lemma createMsgFromEvent_template (labels : slice string) (event : v1.Event) :
  createMsgFromEvent labels event =
  Some {| MsgType := "text";
          Text := {| Content :=
            fmt_Sprintf (lines (rev (elems labels)) +:+ MSG_TEMPLATE)
                        (fields event) |} |}.
Proof.
  unfold createMsgFromEvent, fields.
  destruct labels as [[| label labels] |]; cbn [len elems default length];
    try reflexivity.
  replace (0 <? Z.of_nat (S (length labels))) with true
    by (symmetry; apply Z.ltb_lt; lia).
  rewrite label_loop. reflexivity.
Qed.

(** With labels free of ['%'], the text is the label lines, last label
    first, and then the seven fields. *)
Lemma createMsgFromEvent_plain (labels : slice string) (event : v1.Event) :
  forallb plain (elems labels) = true ->
  createMsgFromEvent labels event =
  Some {| MsgType := "text";
          Text := {| Content :=
            lines (rev (elems labels)) +:+ base_text (fields event) |} |}.
Proof.
  intros Hplain. rewrite createMsgFromEvent_template.
  rewrite fmt_Sprintf_plain.
  - unfold fields. rewrite fmt_Sprintf_base. reflexivity.
  - apply plain_lines. rewrite forallb_forall in *.
    intros l Hl. apply Hplain. apply in_rev. exact Hl.
Qed.


(** ** The request and its answer *)

Lemma target_text (d : DingTalkSink) :
  target d = "https://" +:+ Endpoint d +:+ "?access_token=" +:+ Token d.
Proof. unfold target. cbn. rewrite append_nil_r. reflexivity. Qed.

Lemma payload_text (d : DingTalkSink) (event : v1.Event) :
  payload d event =
  "{" +:+ dq +:+ "msgtype" +:+ dq +:+ ":" +:+ json_string "text" +:+
  "," +:+ dq +:+ "text" +:+ dq +:+ ":{" +:+ dq +:+ "content" +:+ dq +:+ ":" +:+
  json_string
    (fmt_Sprintf (lines (rev (elems (Labels d))) +:+ MSG_TEMPLATE)
                 (fields event)) +:+
  "}}".
Proof.
  unfold payload. rewrite createMsgFromEvent_template. reflexivity.
Qed.

Lemma Ding_posts (d : DingTalkSink) (event : v1.Event) (w : World) :
  posts (effects (Ding d event w)) =
  if allowed d event then [request d event] else [].
Proof.
  rewrite Ding_run. destruct (allowed d event); [| reflexivity].
  destruct (http_Post _ _ _ w) as [[[resp |] [err |]] w']; cbn;
    try destruct (http.StatusCode resp =? http.StatusOK); reflexivity.
Qed.

Lemma Ding_sleeps (d : DingTalkSink) (event : v1.Event) (w : World) :
  sleeps (effects (Ding d event w)) = [].
Proof.
  rewrite Ding_run. destruct (allowed d event); [| reflexivity].
  destruct (http_Post _ _ _ w) as [[[resp |] [err |]] w']; cbn;
    try destruct (http.StatusCode resp =? http.StatusOK); reflexivity.
Qed.

(** The answers that are failures, and what [Ding] does on each. *)
Lemma Ding_not_ok (d : DingTalkSink) (event : v1.Event) (w w' : World)
    (resp : http.Response) :
  allowed d event = true ->
  http_Post (target d) CONTENT_TYPE_JSON (payload d event) w =
    ((Some resp, None), w') ->
  http.StatusCode resp <> http.StatusOK ->
  Ding d event w =
  {| outcome := Panicked NilDereference;
     effects := [request d event];
     world := w' |}.
Proof.
  intros Hallowed Hanswer Hcode. rewrite Ding_run, Hallowed, Hanswer.
  cbn. apply Z.eqb_neq in Hcode. rewrite Hcode. reflexivity.
Qed.

Lemma Ding_no_response (d : DingTalkSink) (event : v1.Event) (w w' : World)
    (err : option error_value) :
  allowed d event = true ->
  http_Post (target d) CONTENT_TYPE_JSON (payload d event) w =
    ((None, err), w') ->
  Ding d event w =
  {| outcome := Panicked NilDereference;
     effects := [request d event];
     world := w' |}.
Proof.
  intros Hallowed Hanswer. rewrite Ding_run, Hallowed, Hanswer. reflexivity.
Qed.

Lemma Ding_error_with_response (d : DingTalkSink) (event : v1.Event)
    (w w' : World) (resp : http.Response) (err : error_value) :
  allowed d event = true ->
  http_Post (target d) CONTENT_TYPE_JSON (payload d event) w =
    ((Some resp, Some err), w') ->
  Ding d event w =
  {| outcome := Returned tt;
     effects :=
       [request d event;
        Klog SevError
          "failed to send msg to dingtalk,because of %s resp code is %d"
          [AString (Error err); AInt (http.StatusCode resp)]];
     world := w' |}.
Proof.
  intros Hallowed Hanswer. rewrite Ding_run, Hallowed, Hanswer. reflexivity.
Qed.

Lemma Ding_ok (d : DingTalkSink) (event : v1.Event) (w w' : World)
    (resp : http.Response) :
  allowed d event = true ->
  http_Post (target d) CONTENT_TYPE_JSON (payload d event) w =
    ((Some resp, None), w') ->
  http.StatusCode resp = http.StatusOK ->
  Ding d event w =
  {| outcome := Returned tt; effects := [request d event]; world := w' |}.
Proof.
  intros Hallowed Hanswer Hcode. rewrite Ding_run, Hallowed, Hanswer.
  cbn. rewrite Hcode. reflexivity.
Qed.

(** ** The batch loop *)

Lemma range_Events_cons (d : DingTalkSink) (event : v1.Event)
    (events : list v1.Event) (w : World) :
  range_Events d (event :: events) w =
  if isEventLevelDangerous d (v1.Type_ event) then
    let r := Ding d event w in
    match outcome r with
    | Returned _ =>
        let r' := range_Events d events (world r) in
        {| outcome := outcome r';
           effects := effects r ++ pause :: effects r';
           world := world r' |}
    | Panicked p =>
        {| outcome := Panicked p; effects := effects r; world := world r |}
    end
  else range_Events d events w.
Proof.
  cbn [range_Events].
  destruct (isEventLevelDangerous d (v1.Type_ event)).
  - unfold mbind, Go_bind, time_Sleep, perform. cbn.
    destruct (outcome (Ding d event w)); cbn; [| reflexivity].
    rewrite <- app_assoc. reflexivity.
  - unfold mbind, Go_bind, mret, Go_ret. cbn.
    destruct (range_Events d events w). reflexivity.
Qed.

(** Whatever happens, the requests sent so far are those of the first
    qualifying events, in order. *)
Lemma range_Events_posts_prefix (d : DingTalkSink) (events : list v1.Event)
    (w : World) :
  posts (effects (range_Events d events w)) `prefix_of`
  map (request d) (List.filter (qualifies d) events).
Proof.
  revert w. induction events as [| event events IH]; intros w.
  - apply prefix_nil.
  - rewrite range_Events_cons. cbn [List.filter]. unfold qualifies at 1.
    destruct (isEventLevelDangerous d (v1.Type_ event)); cbn [andb]; [| apply IH].
    pose proof (Ding_posts d event w) as Hposts.
    destruct (outcome (Ding d event w)); cbn [effects].
    + unfold posts in *. rewrite List.filter_app, Hposts. cbn [List.filter is_post pause].
      destruct (allowed d event); cbn [map app]; [apply prefix_cons |]; apply IH.
    + rewrite Hposts.
      destruct (allowed d event); cbn [map];
        [apply prefix_cons |]; apply prefix_nil.
Qed.

(** A run that returns has sent the request of every qualifying event
    and has paused once for every event the severity gate lets through. *)
Lemma range_Events_returned (d : DingTalkSink) (events : list v1.Event)
    (w : World) :
  outcome (range_Events d events w) = Returned tt ->
  posts (effects (range_Events d events w)) =
    map (request d) (List.filter (qualifies d) events) /\
  sleeps (effects (range_Events d events w)) =
    map (fun _ => pause)
        (List.filter (fun event => isEventLevelDangerous d (v1.Type_ event))
                     events).
Proof.
  revert w. induction events as [| event events IH]; intros w.
  - intros _. split; reflexivity.
  - rewrite range_Events_cons. cbn [List.filter]. unfold qualifies at 1.
    destruct (isEventLevelDangerous d (v1.Type_ event)); cbn [andb]; [| apply IH].
    pose proof (Ding_posts d event w) as Hposts.
    pose proof (Ding_sleeps d event w) as Hsleeps.
    destruct (outcome (Ding d event w)); cbn [outcome effects]; [| discriminate].
    intros Hret. destruct (IH _ Hret) as [IHp IHs].
    unfold posts, sleeps in *.
    rewrite !List.filter_app, Hposts, Hsleeps.
    cbn [List.filter is_post is_sleep pause app map].
    rewrite IHp, IHs.
    destruct (allowed d event); split; reflexivity.
Qed.

Lemma filter_qualifies_length (d : DingTalkSink) (events : list v1.Event) :
  (length (List.filter (qualifies d) events) <=
   length (List.filter (fun event => isEventLevelDangerous d (v1.Type_ event))
                       events))%nat.
Proof.
  induction events as [| event events IH]; cbn [List.filter]; [lia |].
  unfold qualifies at 1.
  destruct (isEventLevelDangerous d (v1.Type_ event)); cbn [andb]; [| exact IH].
  destruct (allowed d event); cbn [length]; lia.
Qed.


(** ** The constructor *)

Lemma len_cons_leb {A : Type} (x : A) (l : list A) :
  (1 <=? len (Some (x :: l))) = true.
Proof. apply Z.leb_le. cbn [len length]. lia. Qed.

Lemma len_zero {A : Type} (s : slice A) :
  len s = 0 <-> s = None \/ s = Some [].
Proof.
  destruct s as [[| x l] |]; cbn [len length].
  - split; [right; reflexivity | reflexivity].
  - split; [lia | intros [H | H]; discriminate].
  - split; [left; reflexivity | reflexivity].
Qed.

Lemma getValues_absent (o : slice string) :
  len o = 0 -> getValues o = Panicked (IndexOutOfRange 0 0).
Proof. intros [-> | ->]%len_zero; reflexivity. Qed.

Lemma getValues_present (first : string) (rest : list string) :
  getValues (Some (first :: rest)) =
  Returned (if String.eqb first "" then None
            else Some (strings_Split first ","%char)).
Proof.
  unfold getValues. rewrite len_cons_leb.
  destruct first as [| c first]; reflexivity.
Qed.

Lemma NewDingTalkSink_no_token (uri : url.URL) :
  len (url.Query uri !! "access_token") = 0 ->
  NewDingTalkSink uri =
  Returned (None,
            Some {| Error := "you must provide dingtalk bot access_token" |}).
Proof.
  intros Hlen. unfold NewDingTalkSink. rewrite Hlen. reflexivity.
Qed.

(** With a token and a value for both [namespaces] and [kinds] the
    constructor returns a sink. *)
Lemma NewDingTalkSink_complete (uri : url.URL) (token ns ks : string)
    (tokens nss kss : list string) :
  url.Query uri !! "access_token" = Some (token :: tokens) ->
  url.Query uri !! "namespaces" = Some (ns :: nss) ->
  url.Query uri !! "kinds" = Some (ks :: kss) ->
  exists d : DingTalkSink,
    NewDingTalkSink uri = Returned (Some d, None) /\
    Token d = token /\
    Namespaces d = (if String.eqb ns "" then None
                    else Some (strings_Split ns ","%char)) /\
    Kinds d = (if String.eqb ks "" then None
               else Some (strings_Split ks ","%char)).
Proof.
  intros Htoken Hns Hks. unfold NewDingTalkSink.
  rewrite Htoken, Hns, Hks, len_cons_leb, !getValues_present.
  destruct (url.Query uri !! "level") as [[| first levels] |];
    try rewrite len_cons_leb; eexists; cbn; repeat split.
Qed.

(** With a token but no value for [namespaces], or for [kinds], the
    constructor indexes an empty slice. *)
Lemma NewDingTalkSink_list_absent (uri : url.URL) (token : string)
    (tokens : list string) :
  url.Query uri !! "access_token" = Some (token :: tokens) ->
  len (url.Query uri !! "namespaces") = 0 \/
  len (url.Query uri !! "kinds") = 0 ->
  NewDingTalkSink uri = Panicked (IndexOutOfRange 0 0).
Proof.
  intros Htoken Habsent. unfold NewDingTalkSink.
  rewrite Htoken, len_cons_leb.
  destruct (url.Query uri !! "level") as [[| first levels] |];
    try rewrite len_cons_leb; cbn;
    (destruct Habsent as [Hns | Hks];
     [ rewrite (getValues_absent _ Hns); reflexivity
     | rewrite (getValues_absent _ Hks);
       destruct (url.Query uri !! "namespaces") as [[| ns nss] |];
       [ reflexivity | rewrite getValues_present; reflexivity | reflexivity ] ]).
Qed.

(** The level of a sink the constructor returns. *)
Lemma NewDingTalkSink_level (uri : url.URL) (d : DingTalkSink)
    (err : option error_value) :
  NewDingTalkSink uri = Returned (Some d, err) ->
  Level d = match url.Query uri !! "level" with
            | Some (first :: _) => getLevel first
            | _ => WARNING
            end.
Proof.
  unfold NewDingTalkSink.
  destruct (url.Query uri !! "access_token") as [[| token tokens] |];
    try rewrite len_cons_leb; cbn; try discriminate.
  destruct (url.Query uri !! "level") as [[| first levels] |];
    try rewrite len_cons_leb; cbn;
    destruct (getValues (url.Query uri !! "namespaces")) as [namespaces | p];
    cbn; try discriminate;
    destruct (getValues (url.Query uri !! "kinds")) as [kinds | p'];
    cbn; try discriminate;
    intros [= <- _]; reflexivity.
Qed.

Lemma Ding_posts_and_sleeps (d : DingTalkSink) (event : v1.Event)
    (w : World) :
  posts_and_sleeps (effects (Ding d event w)) =
  if allowed d event then [request d event] else [].
Proof.
  rewrite Ding_run. destruct (allowed d event); [| reflexivity].
  destruct (http_Post _ _ _ w) as [[[resp |] [err |]] w']; cbn;
    try destruct (http.StatusCode resp =? http.StatusOK); reflexivity.
Qed.

(** The requests and pauses of a run that returns, event by event: the
    request of an event that passes all three filters and then the
    pause, the pause alone for an event that passes the severity gate
    and is dropped at an allow-list, nothing for an event the gate
    stops. *)
Lemma range_Events_returned_trace (d : DingTalkSink)
    (events : list v1.Event) (w : World) :
  outcome (range_Events d events w) = Returned tt ->
  posts_and_sleeps (effects (range_Events d events w)) =
  flat_map (fun event =>
              if isEventLevelDangerous d (v1.Type_ event) then
                ((if allowed d event then [request d event] else []) ++
                 [pause])%list
              else [])
           events.
Proof.
  revert w. induction events as [| event events IH]; intros w.
  - intros _. reflexivity.
  - rewrite range_Events_cons. cbn [flat_map].
    destruct (isEventLevelDangerous d (v1.Type_ event)); [| apply IH].
    pose proof (Ding_posts_and_sleeps d event w) as Hding.
    destruct (outcome (Ding d event w)); cbn [outcome effects]; [| discriminate].
    intros Hret. unfold posts_and_sleeps in *.
    rewrite List.filter_app, Hding.
    cbn [List.filter is_post is_sleep pause orb].
    rewrite (IH _ Hret), <- app_assoc. reflexivity.
Qed.

(** ** The claims that hold for every sink, event and world *)

(** C4 (as amended): [Ding] applies the namespace and the kind check and
    no severity check.  Called directly, it sends a request exactly when
    both allow-lists let the event through, whatever the event's type
    and the level of the sink are; the severity gate is the one of
    [ExportEvents] alone. *)
Theorem Ding_posts_iff_allowed (d : DingTalkSink) (event : v1.Event)
    (w : World) :
  posts (effects (Ding d event w)) =
  if skipped (Namespaces d) (v1.Namespace event)
     || skipped (Kinds d) (v1.Kind (v1.InvolvedObject event))
  then []
  else [request d event].
Proof.
  rewrite Ding_posts. unfold allowed.
  destruct (skipped (Namespaces d) _), (skipped (Kinds d) _); reflexivity.
Qed.

(** C5 (as amended): a check of [Ding] drops the event exactly when its
    allow-list is not nil and no entry equals, byte for byte, the
    namespace (the kind) of the event; so a nil list drops nothing and a
    list without entries that is not nil drops everything.  A dropped
    event makes [Ding] return with nothing done; an event that passes
    both checks is posted. *)
Theorem allow_list_checks (d : DingTalkSink) (event : v1.Event) (w : World) :
  (skipped (Namespaces d) (v1.Namespace event) = true <->
   exists entries : list string,
     Namespaces d = Some entries /\ v1.Namespace event ∉ entries) /\
  (skipped (Kinds d) (v1.Kind (v1.InvolvedObject event)) = true <->
   exists entries : list string,
     Kinds d = Some entries /\
     v1.Kind (v1.InvolvedObject event) ∉ entries) /\
  (skipped (Namespaces d) (v1.Namespace event) = true \/
   skipped (Kinds d) (v1.Kind (v1.InvolvedObject event)) = true ->
   Ding d event w = idle w) /\
  (skipped (Namespaces d) (v1.Namespace event) = false ->
   skipped (Kinds d) (v1.Kind (v1.InvolvedObject event)) = false ->
   posts (effects (Ding d event w)) = [request d event]).
Proof.
  split; [apply skipped_true |]. split; [apply skipped_true |]. split.
  - intros Hskip. rewrite Ding_run. unfold allowed.
    destruct Hskip as [-> | ->]; [reflexivity |].
    rewrite andb_false_r. reflexivity.
  - intros Hns Hks. rewrite Ding_posts. unfold allowed.
    rewrite Hns, Hks. reflexivity.
Qed.

(** C6 (as amended): [ExportEvents] pauses 50ms after every call of
    [Ding] that returns, that is once for every event the severity gate
    lets through, whether [Ding] posted it or dropped it at an
    allow-list; an event the gate stops causes no pause.  So when
    [ExportEvents] returns, its requests and pauses are, event by event
    in batch order: the request and after it the pause for an event
    that passes all three filters, the pause alone for an event that
    passes the gate and is dropped at an allow-list, nothing for an
    event the gate stops.  The pauses are then as many as the events
    that pass the gate, the requests as many as the events that pass
    all three filters, and there are at least as many pauses as
    requests. *)
Theorem ExportEvents_pauses (d : DingTalkSink) (batch : core.EventBatch)
    (w : World) :
  outcome (ExportEvents d batch w) = Returned tt ->
  posts_and_sleeps (effects (ExportEvents d batch w)) =
    flat_map (fun event =>
                if isEventLevelDangerous d (v1.Type_ event) then
                  ((if allowed d event then [request d event] else []) ++
                   [Sleep 50000000])%list
                else [])
             (core.Events batch) /\
  sleeps (effects (ExportEvents d batch w)) =
    map (fun _ => Sleep 50000000)
        (List.filter (fun event => isEventLevelDangerous d (v1.Type_ event))
                     (core.Events batch)) /\
  posts (effects (ExportEvents d batch w)) =
    map (request d) (List.filter (qualifies d) (core.Events batch)) /\
  (length (posts (effects (ExportEvents d batch w))) <=
   length (sleeps (effects (ExportEvents d batch w))))%nat.
Proof.
  unfold ExportEvents. intros Hret.
  destruct (range_Events_returned d (core.Events batch) w Hret) as [Hp Hs].
  split; [exact (range_Events_returned_trace d (core.Events batch) w Hret) |].
  split; [exact Hs |]. split; [exact Hp |].
  rewrite Hp, Hs, !length_map. apply filter_qualifies_length.
Qed.

(** C9: a call of [Ding] sends at most one request, and exactly one when
    both allow-lists let the event through: a POST to
    https://{Endpoint}?access_token={Token} with the content type
    application/json whose body is the object with "msgtype" set to the
    fixed string text and "text" set to an object whose "content" is the
    message rendered by [createMsgFromEvent]. *)
Theorem Ding_request (d : DingTalkSink) (event : v1.Event) (w : World) :
  exists content : string,
    createMsgFromEvent (Labels d) event =
      Some {| MsgType := "text"; Text := {| Content := content |} |} /\
    posts (effects (Ding d event w)) =
    if allowed d event then
      [HttpPost
         ("https://" +:+ Endpoint d +:+ "?access_token=" +:+ Token d)
         "application/json"
         ("{" +:+ dq +:+ "msgtype" +:+ dq +:+ ":" +:+ json_string "text" +:+
          "," +:+ dq +:+ "text" +:+ dq +:+ ":{" +:+
          dq +:+ "content" +:+ dq +:+ ":" +:+ json_string content +:+ "}}")]
    else [].
Proof.
  eexists. split; [apply createMsgFromEvent_template |].
  rewrite Ding_posts. unfold request.
  rewrite target_text, payload_text. reflexivity.
Qed.

(** C10: when the constructor returns a sink for a URI whose first
    [level] value is neither "Warning" nor "Normal", the level of the
    sink is 0 and [isEventLevelDangerous] holds for every event type,
    the unknown ones of score 0 included. *)
Theorem NewDingTalkSink_unknown_level (uri : url.URL) (d : DingTalkSink)
    (err : option error_value) (first : string) (levels : list string) :
  NewDingTalkSink uri = Returned (Some d, err) ->
  url.Query uri !! "level" = Some (first :: levels) ->
  first <> "Warning" -> first <> "Normal" ->
  Level d = 0 /\
  forall level : string, isEventLevelDangerous d level = true.
Proof.
  intros Hnew Hlevel Hw Hn.
  pose proof (NewDingTalkSink_level uri d err Hnew) as Hd.
  rewrite Hlevel in Hd.
  assert (H0 : Level d = 0).
  { rewrite Hd.
    destruct (getLevel_cases first) as [[_ ->] | [[_ ->] | [-> _]]]; done. }
  split; [exact H0 |].
  intros level. unfold isEventLevelDangerous. rewrite H0.
  pose proof (getLevel_nonneg level) as Hpos.
  destruct (Z.leb_spec 0 (getLevel level)); [reflexivity | lia].
Qed.

End Properties.

(** * The sink on sample inputs *)

(** The labels of the specification's example, for every event and
    whatever the library does elsewhere: last label first, then the base
    template. *)
Lemma createMsgFromEvent_two_labels (rt : Runtime) (event : v1.Event) :
  createMsgFromEvent (Some ["cluster-1"; "env-prod"]) event =
  Some {| MsgType := "text";
          Text := {| Content :=
            "env-prod" +:+ nl +:+ "cluster-1" +:+ nl +:+
            base_text (fields event) |} |}.
Proof.
  rewrite createMsgFromEvent_plain by reflexivity. reflexivity.
Qed.

(** The end-to-end run of the specification: a sink built from
    [normal_uri], a batch of a Warning Pod event and a Normal Node event
    and a destination that answers 200.  One request goes out, for the
    Pod event; both events are followed by a pause. *)
Lemma ExportEvents_end_to_end :
  NewDingTalkSink normal_uri = Returned (Some normal_sink, None) /\
  ExportEvents (rt := server (status 200)) normal_sink
    (batch_of [pod_warning; node_normal]) 0%nat =
  {| outcome := Returned tt;
     effects := [request (rt := server (status 200)) normal_sink pod_warning;
                 Sleep 50000000; Sleep 50000000];
     world := 1%nat |}.
Proof. split; reflexivity. Qed.

(** C8, at a type that is neither "Warning" nor "Normal". *)
Lemma getLevel_spec_witness : getLevel "Info" = 0.
Proof.
  apply (proj2 (proj2 getLevel_spec) "Info"); discriminate.
Defined.

(** C1: a destination that answers 500 without a transport error, and a
    destination that cannot be reached.  In both runs the request goes
    out once; then the statement that should log the failure
    dereferences the nil error (the nil response), so nothing is logged
    and [Ding] does not return. *)
Theorem Ding_failed_delivery_panics :
  Ding (rt := server (status 500)) open_sink pod_warning 0%nat =
    {| outcome := Panicked NilDereference;
       effects := [request (rt := server (status 500)) open_sink pod_warning];
       world := 1%nat |} /\
  Ding (rt := server unreachable) open_sink pod_warning 0%nat =
    {| outcome := Panicked NilDereference;
       effects := [request (rt := server unreachable) open_sink pod_warning];
       world := 1%nat |}.
Proof. split; reflexivity. Qed.

(** C2: the URI of the usage note, with a token, a level and a label but
    neither [namespaces] nor [kinds].  [getValues] indexes the empty
    slice and the constructor panics instead of returning a sink. *)
Theorem NewDingTalkSink_usage_uri_panics :
  url.Query usage_uri !! "access_token" = Some ["tok123"] /\
  url.Query usage_uri !! "namespaces" = None /\
  NewDingTalkSink usage_uri = Panicked (IndexOutOfRange 0 0).
Proof. repeat split; reflexivity. Qed.

(** C3: two events that pass all three filters, sent to a destination
    that answers 500.  The first delivery panics, so the second event is
    never posted. *)
Theorem ExportEvents_stops_at_failed_delivery :
  qualifies open_sink pod_warning = true /\
  qualifies open_sink node_warning = true /\
  outcome (ExportEvents (rt := server (status 500)) open_sink
             (batch_of [pod_warning; node_warning]) 0%nat) =
    Panicked NilDereference /\
  posts (effects (ExportEvents (rt := server (status 500)) open_sink
                    (batch_of [pod_warning; node_warning]) 0%nat)) =
    [request (rt := server (status 500)) open_sink pod_warning].
Proof. repeat split; reflexivity. Qed.

(** C4 fails as stated: an event of type "Normal", score 1, under the
    level 2 is posted when [Ding] is called on it directly. *)
Lemma Ding_below_level_posts :
  getLevel (v1.Type_ node_normal) < Level open_sink /\
  posts (effects (Ding (rt := server (status 200)) open_sink node_normal 0%nat)) =
    [request (rt := server (status 200)) open_sink node_normal].
Proof. split; reflexivity. Qed.

(** C5 fails as stated: an allow-list that is empty but not nil drops
    the event. *)
Lemma Ding_empty_allow_list_drops :
  len (Namespaces no_entry_sink) = 0 /\
  skipped (Namespaces no_entry_sink) (v1.Namespace pod_warning) = true /\
  Ding (rt := server (status 200)) no_entry_sink pod_warning 0%nat =
    idle (rt := server (status 200)) 0%nat.
Proof. repeat split; reflexivity. Qed.

(** C5 (as amended), at an event outside the allow-list ns-a. *)
Lemma allow_list_checks_witness :
  skipped (Namespaces ns_a_sink) (v1.Namespace pod_warning) = true /\
  Ding (rt := server (status 200)) ns_a_sink pod_warning 0%nat =
    idle (rt := server (status 200)) 0%nat.
Proof.
  split; [reflexivity |].
  destruct (allow_list_checks (rt := server (status 200))
              ns_a_sink pod_warning 0%nat) as (_ & _ & Hdrop & _).
  apply Hdrop. left. reflexivity.
Defined.

(** C6 fails as stated: an event that passes the severity gate and is
    dropped by the namespace allow-list is followed by a pause, so the
    run has one pause and no request. *)
Lemma ExportEvents_pause_without_delivery :
  outcome (ExportEvents (rt := server (status 200)) ns_a_sink
             (batch_of [pod_warning]) 0%nat) = Returned tt /\
  sleeps (effects (ExportEvents (rt := server (status 200)) ns_a_sink
                     (batch_of [pod_warning]) 0%nat)) = [Sleep 50000000] /\
  posts (effects (ExportEvents (rt := server (status 200)) ns_a_sink
                    (batch_of [pod_warning]) 0%nat)) = [].
Proof. repeat split; reflexivity. Qed.

(** C6 (as amended), on a batch of a posted event, an event the gate
    stops and a second posted event: each request is followed by its
    pause. *)
Lemma ExportEvents_pauses_witness :
  outcome (ExportEvents (rt := server (status 200)) open_sink
             (batch_of [pod_warning; node_normal; node_warning]) 0%nat) =
    Returned tt /\
  posts_and_sleeps (effects
    (ExportEvents (rt := server (status 200)) open_sink
       (batch_of [pod_warning; node_normal; node_warning]) 0%nat)) =
    [request (rt := server (status 200)) open_sink pod_warning;
     Sleep 50000000;
     request (rt := server (status 200)) open_sink node_warning;
     Sleep 50000000].
Proof.
  split; [reflexivity |].
  destruct (ExportEvents_pauses (rt := server (status 200)) open_sink
              (batch_of [pod_warning; node_normal; node_warning]) 0%nat)
    as (Htrace & _ & _ & _); [reflexivity |].
  rewrite Htrace. reflexivity.
Defined.

(** C7: the label [%s].  The label is pasted into the format, so it
    takes the event's type as its operand, every field moves up one
    place and the message is reported missing; the text does not start
    with the label line. *)
Theorem createMsgFromEvent_label_directive :
  createMsgFromEvent (rt := server (status 200)) (Some ["%s"]) pod_warning =
    Some {| MsgType := "text";
            Text := {| Content :=
              "Warning" +:+ nl +:+
              "Level:Pod " +:+ nl +:+
              "Kind:default " +:+ nl +:+
              "Namespace:web-0 " +:+ nl +:+
              "Name:BackOff " +:+ nl +:+
              "Reason:2019-06-01 10:00:00 +0000 UTC " +:+ nl +:+
              "Timestamp:Back-off restarting failed container " +:+ nl +:+
              "Message:%!s(MISSING)" |} |} /\
  createMsgFromEvent (rt := server (status 200)) (Some ["%s"]) pod_warning <>
    Some {| MsgType := "text";
            Text := {| Content :=
              lines (rev ["%s"]) +:+ base_text (fields pod_warning) |} |}.
Proof. split; [reflexivity | discriminate]. Qed.

(** C10, at ...?access_token=tok123&level=Info&namespaces=default&kinds=Pod. *)
Lemma NewDingTalkSink_unknown_level_witness :
  NewDingTalkSink info_uri = Returned (Some info_sink, None) /\
  Level info_sink = 0 /\
  forall level : string, isEventLevelDangerous info_sink level = true.
Proof.
  split; [reflexivity |].
  apply (NewDingTalkSink_unknown_level info_uri info_sink None "Info" []);
    [reflexivity | reflexivity | discriminate | discriminate].
Defined.

(** * More of the package *)

(** ** Splitting a parameter value *)

Lemma strings_Split_nonempty (s : string) (sep : ascii) :
  exists piece pieces, strings_Split s sep = piece :: pieces.
Proof.
  destruct s as [| c s]; cbn [strings_Split]; [eauto |].
  destruct (Ascii.eqb c sep); [eauto |].
  destruct (strings_Split s sep); eauto.
Qed.

Lemma concat_cons_cons (sep x y : string) (l : list string) :
  String.concat sep (x :: y :: l) = x +:+ sep +:+ String.concat sep (y :: l).
Proof. reflexivity. Qed.

(** Joining the pieces with the separator gives the string back. *)
Lemma strings_Split_concat (s : string) (sep : ascii) :
  String.concat (String sep EmptyString) (strings_Split s sep) = s.
Proof.
  induction s as [| c s IH]; [reflexivity |].
  cbn [strings_Split].
  destruct (strings_Split_nonempty s sep) as (piece & pieces & Hsplit).
  rewrite Hsplit in *.
  destruct (Ascii.eqb_spec c sep) as [-> | Hne].
  - rewrite concat_cons_cons, IH. reflexivity.
  - destruct pieces as [| piece' pieces].
    + cbn [String.concat] in *. rewrite IH. reflexivity.
    + rewrite concat_cons_cons in *. rewrite append_cons, IH. reflexivity.
Qed.

(** No piece holds the separator. *)
Lemma strings_Split_pieces (s : string) (sep : ascii) :
  Forall (fun piece => ~ In sep (list_ascii_of_string piece))
         (strings_Split s sep).
Proof.
  induction s as [| c s IH]; cbn [strings_Split].
  - constructor; [intros [] | constructor].
  - destruct (Ascii.eqb_spec c sep) as [-> | Hne].
    + constructor; [intros [] | exact IH].
    + destruct (strings_Split s sep) as [| piece pieces].
      * constructor; [| constructor]. intros [H | []]. congruence.
      * inversion IH as [| ? ? Hpiece Hpieces]; subst.
        constructor; [| exact Hpieces].
        intros [H | H]; [congruence | exact (Hpiece H)].
Qed.

(** There is one piece more than there are separators. *)
Lemma strings_Split_length (s : string) (sep : ascii) :
  length (strings_Split s sep) =
  S (length (List.filter (Ascii.eqb sep) (list_ascii_of_string s))).
Proof.
  induction s as [| c s IH]; [reflexivity |].
  cbn [strings_Split list_ascii_of_string List.filter].
  rewrite (Ascii.eqb_sym sep c).
  destruct (Ascii.eqb c sep).
  - cbn [length]. rewrite IH. reflexivity.
  - destruct (strings_Split s sep) as [| piece pieces]; [discriminate |].
    exact IH.
Qed.

(** ** What the constructor returns *)

(** Every way [NewDingTalkSink] can return: the error for a missing
    token, or a sink whose fields are read off the URI. *)
Lemma NewDingTalkSink_returned (uri : url.URL) (s : option DingTalkSink)
    (e : option error_value) :
  NewDingTalkSink uri = Returned (s, e) ->
  len (url.Query uri !! "access_token") = 0 /\
  s = None /\
  e = Some {| Error := "you must provide dingtalk bot access_token" |} \/
  exists token tokens ns nss ks kss,
    url.Query uri !! "access_token" = Some (token :: tokens) /\
    url.Query uri !! "namespaces" = Some (ns :: nss) /\
    url.Query uri !! "kinds" = Some (ks :: kss) /\
    e = None /\
    s = Some
      {| Endpoint := match url.Host uri with
                     | EmptyString => ""
                     | String _ _ => url.Host uri +:+ url.Path uri
                     end;
         Namespaces := if String.eqb ns "" then None
                       else Some (strings_Split ns ","%char);
         Kinds := if String.eqb ks "" then None
                  else Some (strings_Split ks ","%char);
         Token := token;
         Level := match url.Query uri !! "level" with
                  | Some (first :: _) => getLevel first
                  | _ => WARNING
                  end;
         Labels := match url.Query uri !! "label" with
                   | Some (label :: labels) => Some (label :: labels)
                   | _ => None
                   end |}.
Proof.
  intros Hnew.
  destruct (url.Query uri !! "access_token") as [[| token tokens] |] eqn:Htoken.
  - left. rewrite NewDingTalkSink_no_token in Hnew by (rewrite Htoken; reflexivity).
    injection Hnew as <- <-. repeat split.
  - right.
    destruct (url.Query uri !! "namespaces") as [[| ns nss] |] eqn:Hns;
      try (rewrite (NewDingTalkSink_list_absent uri token tokens Htoken) in Hnew
             by (left; rewrite Hns; reflexivity); discriminate).
    destruct (url.Query uri !! "kinds") as [[| ks kss] |] eqn:Hks;
      try (rewrite (NewDingTalkSink_list_absent uri token tokens Htoken) in Hnew
             by (right; rewrite Hks; reflexivity); discriminate).
    exists token, tokens, ns, nss, ks, kss.
    repeat (split; [reflexivity |]).
    unfold NewDingTalkSink in Hnew.
    rewrite Htoken, Hns, Hks, len_cons_leb, !getValues_present in Hnew.
    destruct (url.Query uri !! "level") as [[| first levels] |];
      destruct (url.Query uri !! "label") as [[| label labels] |];
      try rewrite !len_cons_leb in Hnew;
      destruct (url.Host uri) as [| c host];
      cbn in Hnew; injection Hnew as <- <-; split; reflexivity.
  - left. rewrite NewDingTalkSink_no_token in Hnew by (rewrite Htoken; reflexivity).
    injection Hnew as <- <-. repeat split.
Qed.

Section Coverage.
Context {rt : Runtime}.

(** ** getValues *)

(** X1: for a parameter whose first value is not empty, [getValues]
    returns the comma-separated pieces of that first value and ignores
    the other values.  There is at least one piece, one more than there
    are commas; no piece holds a comma; joined with commas the pieces
    give the value back, so nothing is trimmed or dropped. *)
Theorem getValues_pieces (first : string) (rest : list string) :
  first <> "" ->
  exists entry entries,
    getValues (Some (first :: rest)) = Returned (Some (entry :: entries)) /\
    String.concat "," (entry :: entries) = first /\
    Forall (fun piece => ~ In ","%char (list_ascii_of_string piece))
           (entry :: entries) /\
    length (entry :: entries) =
      S (length (List.filter (Ascii.eqb ","%char) (list_ascii_of_string first))).
Proof.
  intros Hfirst. rewrite getValues_present.
  destruct (String.eqb_spec first "") as [-> | _]; [done |].
  destruct (strings_Split_nonempty first ","%char) as (entry & entries & Hsplit).
  exists entry, entries. rewrite <- Hsplit.
  split; [reflexivity |]. split; [apply strings_Split_concat |].
  split; [apply strings_Split_pieces | apply strings_Split_length].
Qed.

(** X2: [getValues] panics exactly when the parameter has no value (a
    nil or empty slice), always with an index 0 out of a range of
    length 0; it returns nil exactly when the first value is the empty
    string, whatever the other values are. *)
Theorem getValues_outcomes (o : slice string) :
  (getValues o = Panicked (IndexOutOfRange 0 0) <-> len o = 0) /\
  (forall p, getValues o = Panicked p -> p = IndexOutOfRange 0 0) /\
  (getValues o = Returned None <-> exists rest, o = Some ("" :: rest)).
Proof.
  destruct o as [[| first rest] |].
  - split; [split; reflexivity |]. split.
    + intros p [= <-]. reflexivity.
    + split; [discriminate | intros [rest' [=]]].
  - rewrite getValues_present. split; [| split].
    + split; [discriminate |]. cbn [len length]. lia.
    + discriminate.
    + split.
      * destruct (String.eqb_spec first "") as [-> | Hne]; [eauto |].
        destruct (strings_Split_nonempty first ","%char) as (? & ? & ->).
        discriminate.
      * intros [rest' [= -> _]]. reflexivity.
  - split; [split; reflexivity |]. split.
    + intros p [= <-]. reflexivity.
    + split; [discriminate | intros [rest' [=]]].
Qed.

(** ** NewDingTalkSink *)

(** X3: the constructor returns the error "you must provide dingtalk bot
    access_token" when [access_token] has no value; and whenever it
    returns, exactly one of the sink and the error is nil, the sink
    being nil exactly when [access_token] has no value. *)
Theorem NewDingTalkSink_error_iff (uri : url.URL) :
  (len (url.Query uri !! "access_token") = 0 ->
   NewDingTalkSink uri =
   Returned (None,
             Some {| Error := "you must provide dingtalk bot access_token" |})) /\
  (forall s e, NewDingTalkSink uri = Returned (s, e) ->
     (s = None <-> len (url.Query uri !! "access_token") = 0) /\
     (s = None <-> e <> None)).
Proof.
  split; [apply NewDingTalkSink_no_token |].
  intros s e Hnew.
  destruct (NewDingTalkSink_returned uri s e Hnew)
    as [(Hlen & -> & ->) | (token & tokens & ns & nss & ks & kss &
                            Htoken & _ & _ & -> & ->)].
  - repeat split; try done.
  - rewrite Htoken. cbn [len length]. repeat split; try done; lia.
Qed.

(** X4: with a value for [access_token], the constructor returns a sink
    exactly when both [namespaces] and [kinds] have a value; when either
    has none it panics with an index out of range. *)
Theorem NewDingTalkSink_returns_iff (uri : url.URL) :
  1 <= len (url.Query uri !! "access_token") ->
  ((exists d, NewDingTalkSink uri = Returned (Some d, None)) <->
   1 <= len (url.Query uri !! "namespaces") /\
   1 <= len (url.Query uri !! "kinds")) /\
  (len (url.Query uri !! "namespaces") = 0 \/
   len (url.Query uri !! "kinds") = 0 ->
   NewDingTalkSink uri = Panicked (IndexOutOfRange 0 0)).
Proof.
  intros Htoken.
  destruct (url.Query uri !! "access_token") as [[| token tokens] |] eqn:Hlookup;
    cbn [len length] in Htoken; try lia.
  split; [split |].
  - intros [d Hnew].
    destruct (NewDingTalkSink_returned uri _ _ Hnew)
      as [(_ & [=] & _) | (? & ? & ns & nss & ks & kss & _ & -> & -> & _)].
    cbn [len length]. lia.
  - intros [Hns Hks].
    destruct (url.Query uri !! "namespaces") as [[| ns nss] |] eqn:Hnsl;
      cbn [len length] in Hns; try lia.
    destruct (url.Query uri !! "kinds") as [[| ks kss] |] eqn:Hksl;
      cbn [len length] in Hks; try lia.
    destruct (NewDingTalkSink_complete uri token ns ks tokens nss kss
                Hlookup Hnsl Hksl) as (d & Hnew & _).
    exists d. exact Hnew.
  - apply (NewDingTalkSink_list_absent uri token tokens Hlookup).
Qed.

(** X5: in a sink the constructor returns, the endpoint is the host
    followed by the path (empty when the host is empty), the token is
    the first value of [access_token], and the labels are all the values
    of [label] in their order, nil when there is none. *)
Theorem NewDingTalkSink_fields (uri : url.URL) (d : DingTalkSink)
    (e : option error_value) :
  NewDingTalkSink uri = Returned (Some d, e) ->
  Endpoint d = match url.Host uri with
               | EmptyString => ""
               | String _ _ => url.Host uri +:+ url.Path uri
               end /\
  (exists tokens,
     url.Query uri !! "access_token" = Some (Token d :: tokens)) /\
  Labels d = match url.Query uri !! "label" with
             | Some (label :: labels) => Some (label :: labels)
             | _ => None
             end.
Proof.
  intros Hnew.
  destruct (NewDingTalkSink_returned uri _ _ Hnew)
    as [(_ & [=] & _) | (token & tokens & ns & nss & ks & kss &
                         Htoken & _ & _ & _ & [= ->])].
  cbn [Endpoint Token Labels]. eauto.
Qed.

(** X6: a sink the constructor returns has a level of 0, 1 or 2, and
    each of its allow-lists and its label list is nil or has at least
    one entry; no allow-list entry holds a comma. *)
Theorem NewDingTalkSink_invariant (uri : url.URL) (d : DingTalkSink)
    (e : option error_value) :
  NewDingTalkSink uri = Returned (Some d, e) ->
  0 <= Level d <= 2 /\
  (Namespaces d = None \/ 1 <= len (Namespaces d)) /\
  (Kinds d = None \/ 1 <= len (Kinds d)) /\
  (Labels d = None \/ 1 <= len (Labels d)) /\
  Forall (fun entry => ~ In ","%char (list_ascii_of_string entry))
         (elems (Namespaces d) ++ elems (Kinds d)).
Proof.
  intros Hnew.
  destruct (NewDingTalkSink_returned uri _ _ Hnew)
    as [(_ & [=] & _) | (token & tokens & ns & nss & ks & kss &
                         _ & _ & _ & _ & [= ->])].
  cbn [Level Namespaces Kinds Labels].
  assert (Hlist : forall v : string,
    let l := if String.eqb v "" then None
             else Some (strings_Split v ","%char) in
    (l = None \/ 1 <= len l) /\
    Forall (fun entry => ~ In ","%char (list_ascii_of_string entry)) (elems l)).
  { intros v. cbn zeta. destruct (String.eqb v "").
    - split; [left; reflexivity | constructor].
    - split; [| apply strings_Split_pieces].
      right. destruct (strings_Split_nonempty v ","%char) as (? & ? & ->).
      cbn [len length]. lia. }
  destruct (Hlist ns) as [Hns Hnsc], (Hlist ks) as [Hks Hksc].
  split; [| split; [exact Hns | split; [exact Hks | split]]].
  - destruct (url.Query uri !! "level") as [[| first levels] |];
      unfold WARNING; try lia.
    destruct (getLevel_cases first) as [[-> _] | [[-> _] | [-> _]]]; lia.
  - destruct (url.Query uri !! "label") as [[| label labels] |];
      [left | right; cbn [len length]; lia | left]; reflexivity.
  - apply Forall_app. split; assumption.
Qed.

(** The allow-lists of a sink the constructor returns, read off the
    first values of the two parameters. *)
Lemma NewDingTalkSink_lists (uri : url.URL) (d : DingTalkSink)
    (e : option error_value) :
  NewDingTalkSink uri = Returned (Some d, e) ->
  exists ns nss ks kss,
    url.Query uri !! "namespaces" = Some (ns :: nss) /\
    url.Query uri !! "kinds" = Some (ks :: kss) /\
    Namespaces d = (if String.eqb ns "" then None
                    else Some (strings_Split ns ","%char)) /\
    Kinds d = (if String.eqb ks "" then None
               else Some (strings_Split ks ","%char)).
Proof.
  intros Hnew.
  destruct (NewDingTalkSink_returned uri _ _ Hnew)
    as [(_ & [=] & _) | (token & tokens & ns & nss & ks & kss &
                         _ & Hns & Hks & _ & [= ->])].
  exists ns, nss, ks, kss. repeat split; assumption.
Qed.

Lemma skipped_split (v x : string) :
  skipped (if String.eqb v "" then None
           else Some (strings_Split v ","%char)) x = false <->
  v = "" \/ x ∈ strings_Split v ","%char.
Proof.
  destruct (String.eqb_spec v "") as [-> | Hne].
  - split; [left; reflexivity | reflexivity].
  - rewrite <- not_true_iff_false, skipped_true. split.
    + intros Hnot. right.
      destruct (decide (x ∈ strings_Split v ","%char)) as [Hin | Hout];
        [exact Hin |].
      exfalso. apply Hnot. eexists. split; [reflexivity | exact Hout].
    + intros [Hv | Hin] (l & [= <-] & Hout); [exact (Hne Hv) | exact (Hout Hin)].
Qed.

(** X7: for a sink the constructor returns, a check of [Ding] drops an
    event exactly when the allow-list has at least one entry and none of
    them equals the namespace (the kind) of the event. *)
Theorem NewDingTalkSink_allow_lists (uri : url.URL) (d : DingTalkSink)
    (e : option error_value) (x : string) :
  NewDingTalkSink uri = Returned (Some d, e) ->
  (skipped (Namespaces d) x = true <->
   1 <= len (Namespaces d) /\ x ∉ elems (Namespaces d)) /\
  (skipped (Kinds d) x = true <->
   1 <= len (Kinds d) /\ x ∉ elems (Kinds d)).
Proof.
  intros Hnew.
  destruct (NewDingTalkSink_lists uri d e Hnew)
    as (ns & nss & ks & kss & _ & _ & -> & ->).
  assert (Hlist : forall v : string,
    let l := if String.eqb v "" then None
             else Some (strings_Split v ","%char) in
    skipped l x = true <-> 1 <= len l /\ x ∉ elems l).
  { intros v. cbn zeta. rewrite skipped_true.
    destruct (String.eqb v "").
    - split; [intros (? & [=] & _) | cbn [len]; lia].
    - destruct (strings_Split_nonempty v ","%char) as (piece & pieces & ->).
      cbn [len length elems default]. split.
      + intros (l & [= <-] & Hout). split; [lia | exact Hout].
      + intros [_ Hout]. eexists. split; [reflexivity | exact Hout]. }
  split; apply Hlist.
Qed.

(** X8: a sink built from a URI posts an event, when [Ding] is called on
    it, exactly when the namespace of the event is one of the
    comma-separated pieces of the first [namespaces] value or that value
    is empty, and the same holds of its kind and the first [kinds]
    value. *)
Theorem NewDingTalkSink_then_Ding (uri : url.URL) (d : DingTalkSink)
    (e : option error_value) (ns ks : string) (nss kss : list string)
    (event : v1.Event) (w : World) :
  NewDingTalkSink uri = Returned (Some d, e) ->
  url.Query uri !! "namespaces" = Some (ns :: nss) ->
  url.Query uri !! "kinds" = Some (ks :: kss) ->
  posts (effects (Ding d event w)) = [request d event] <->
  (ns = "" \/ v1.Namespace event ∈ strings_Split ns ","%char) /\
  (ks = "" \/ v1.Kind (v1.InvolvedObject event) ∈ strings_Split ks ","%char).
Proof.
  intros Hnew Hns Hks.
  destruct (NewDingTalkSink_lists uri d e Hnew)
    as (ns' & nss' & ks' & kss' & Hns' & Hks' & Hnsd & Hksd).
  rewrite Hns in Hns'. rewrite Hks in Hks'.
  injection Hns' as <- <-. injection Hks' as <- <-.
  rewrite Ding_posts. unfold allowed. rewrite Hnsd, Hksd.
  rewrite <- !skipped_split.
  destruct (skipped _ (v1.Namespace event)), (skipped _ (v1.Kind _));
    cbn [negb andb]; split; try done; intros [? ?]; done.
Qed.

(** X9: the severity gate of a sink the constructor returns.  Without a
    [level] value, and with the first value "Warning", exactly the
    events of type "Warning" pass; with the first value "Normal",
    exactly those of type "Warning" or "Normal". *)
Theorem NewDingTalkSink_severity_gate (uri : url.URL) (d : DingTalkSink)
    (e : option error_value) :
  NewDingTalkSink uri = Returned (Some d, e) ->
  (len (url.Query uri !! "level") = 0 ->
   forall level, isEventLevelDangerous d level = true <-> level = "Warning") /\
  (forall levels, url.Query uri !! "level" = Some ("Warning" :: levels) ->
   forall level, isEventLevelDangerous d level = true <-> level = "Warning") /\
  (forall levels, url.Query uri !! "level" = Some ("Normal" :: levels) ->
   forall level, isEventLevelDangerous d level = true <->
                 level = "Warning" \/ level = "Normal").
Proof.
  intros Hnew. pose proof (NewDingTalkSink_level uri d e Hnew) as Hlevel.
  assert (Hgate : forall level,
    isEventLevelDangerous d level = true <-> Level d <= getLevel level).
  { intros level. unfold isEventLevelDangerous.
    destruct (Z.leb_spec (Level d) (getLevel level)); split; try done; lia. }
  assert (Htwo : Level d = 2 ->
    forall level, isEventLevelDangerous d level = true <-> level = "Warning").
  { intros H2 level. rewrite Hgate, H2.
    destruct (getLevel_cases level) as [[-> ->] | [[-> ->] | (-> & Hw & _)]];
      split; try done; lia. }
  split; [| split].
  - intros Hlen. apply Htwo. rewrite Hlevel.
    apply len_zero in Hlen as [-> | ->]; reflexivity.
  - intros levels Hl. apply Htwo. rewrite Hlevel, Hl. reflexivity.
  - intros levels Hl level. rewrite Hgate, Hlevel, Hl.
    change (getLevel "Normal") with 1.
    destruct (getLevel_cases level) as [[-> ->] | [[-> ->] | (-> & Hw & Hn)]];
      split; try lia; try (intros _; lia); eauto.
    intros [? | ?]; done.
Qed.

(** ** Ding *)

(** X10: given what [http.Post] answers to the request of the event,
    [Ding] returns exactly when it drops the event, or the answer has a
    response together with an error, or a response with the status 200
    and no error; in every other case it panics on a nil dereference.
    The world moves on exactly when the request was sent. *)
Theorem Ding_returns_iff (d : DingTalkSink) (event : v1.Event) (w w' : World)
    (resp : option http.Response) (err : option error_value) :
  http_Post (target d) CONTENT_TYPE_JSON (payload d event) w =
    ((resp, err), w') ->
  (outcome (Ding d event w) = Returned tt <->
   allowed d event = false \/
   exists r, resp = Some r /\
             (err <> None \/ http.StatusCode r = http.StatusOK)) /\
  (outcome (Ding d event w) <> Returned tt ->
   outcome (Ding d event w) = Panicked NilDereference) /\
  world (Ding d event w) = (if allowed d event then w' else w).
Proof.
  intros Hanswer. rewrite Ding_run, Hanswer.
  destruct (allowed d event); cbn [idle outcome world].
  - split; [| split; [| reflexivity]].
    + destruct resp as [r |], err as [err |]; cbn [after_answer fst].
      * split; [intros _; right; exists r; split; [| left]; done | done].
      * destruct (Z.eqb_spec (http.StatusCode r) http.StatusOK) as [Heq | Hne];
          cbn [fst]; split; try done.
        -- intros _. right. exists r. split; [| right]; done.
        -- intros [? | (r' & [= <-] & [? | ?])]; done.
      * split; [done | intros [? | (r' & [=] & _)]; done].
      * split; [done | intros [? | (r' & [=] & _)]; done].
    + destruct resp as [r |], err as [err |]; cbn [after_answer fst];
        try destruct (http.StatusCode r =? http.StatusOK); cbn [fst]; done.
  - split; [split; [left |]; done | split; done].
Qed.


(** ** ExportEvents *)

(** What one round of the loop adds to the trace when every delivery is
    answered 200. *)
Lemma range_Events_healthy (d : DingTalkSink) (events : list v1.Event) :
  (forall u c b w0, exists r,
     fst (http_Post u c b w0) = (Some r, None) /\
     http.StatusCode r = http.StatusOK) ->
  forall w,
    outcome (range_Events d events w) = Returned tt /\
    effects (range_Events d events w) =
    flat_map (fun event =>
                if isEventLevelDangerous d (v1.Type_ event) then
                  ((if allowed d event then [request d event] else []) ++
                   [Sleep 50000000])%list
                else [])
             events.
Proof.
  intros Hok. induction events as [| event events IH]; intros w.
  - split; reflexivity.
  - rewrite range_Events_cons. cbn [flat_map].
    destruct (isEventLevelDangerous d (v1.Type_ event)); [| apply IH].
    rewrite Ding_run.
    destruct (allowed d event).
    + destruct (Hok (target d) CONTENT_TYPE_JSON (payload d event) w)
        as (r & Hanswer & Hcode).
      destruct (http_Post _ _ _ w) as [answer w']. cbn [fst] in Hanswer.
      subst answer. cbn [after_answer]. rewrite Hcode. cbn.
      destruct (IH w') as [-> ->]. split; reflexivity.
    + cbn. destruct (IH w) as [-> ->]. split; reflexivity.
Qed.

(** X12: when the destination answers every request with the status 200
    and no error, [ExportEvents] returns for every batch, and its trace
    is, event by event in batch order: nothing for an event the
    severity gate stops, a pause of 50ms for an event the gate lets
    through and an allow-list drops, the request and then the pause for
    an event that passes all three filters.  Nothing is logged. *)
Theorem ExportEvents_healthy (d : DingTalkSink) (batch : core.EventBatch)
    (w : World) :
  (forall u c b w0, exists r,
     fst (http_Post u c b w0) = (Some r, None) /\
     http.StatusCode r = http.StatusOK) ->
  outcome (ExportEvents d batch w) = Returned tt /\
  effects (ExportEvents d batch w) =
  flat_map (fun event =>
              if isEventLevelDangerous d (v1.Type_ event) then
                ((if allowed d event then [request d event] else []) ++
                 [Sleep 50000000])%list
              else [])
           (core.Events batch).
Proof. intros Hok. apply range_Events_healthy. exact Hok. Qed.

(** X13: a batch none of whose events passes the severity gate, the
    empty batch included, leaves no trace: [ExportEvents] returns at
    once, whatever the destination would answer. *)
Theorem ExportEvents_below_level (d : DingTalkSink) (batch : core.EventBatch)
    (w : World) :
  Forall (fun event => getLevel (v1.Type_ event) < Level d)
         (core.Events batch) ->
  ExportEvents d batch w = idle w.
Proof.
  unfold ExportEvents. induction 1 as [| event events Hevent _ IH].
  - reflexivity.
  - rewrite range_Events_cons. unfold isEventLevelDangerous.
    destruct (Z.leb_spec (Level d) (getLevel (v1.Type_ event))); [lia |].
    exact IH.
Qed.

Lemma range_Events_app (d : DingTalkSink) (events events' : list v1.Event)
    (w : World) :
  range_Events d (events ++ events') w =
  (range_Events d events;; range_Events d events') w.
Proof.
  revert w. induction events as [| event events IH]; intros w.
  - unfold mbind, Go_bind. cbn.
    destruct (range_Events d events' w). reflexivity.
  - cbn [app]. unfold mbind, Go_bind in *. rewrite !range_Events_cons.
    cbv zeta.
    destruct (isEventLevelDangerous d (v1.Type_ event)); [| apply IH].
    destruct (outcome (Ding d event w)); cbn [outcome effects world];
      [| reflexivity].
    rewrite IH.
    destruct (outcome (range_Events d events (world (Ding d event w))));
      cbn [outcome effects world]; [| reflexivity].
    rewrite <- app_assoc. reflexivity.
Qed.

(** X14: exporting a batch is exporting a first part of it and then the
    rest: the second export starts in the world the first one left, the
    traces follow each other, and a panic in the first part stops the
    whole with the trace so far. *)
Theorem ExportEvents_app (d : DingTalkSink) (batch first rest : core.EventBatch)
    (w : World) :
  core.Events batch = (core.Events first ++ core.Events rest)%list ->
  ExportEvents d batch w =
  (ExportEvents d first;; ExportEvents d rest) w.
Proof.
  unfold ExportEvents. intros ->. apply range_Events_app.
Qed.

(** X15: in every run of [ExportEvents], one that panics included, the
    requests sent are those of the first so many events that pass all
    three filters, in batch order: no request for an event a filter
    stops, none twice, none out of order. *)
Theorem ExportEvents_posts_in_order (d : DingTalkSink)
    (batch : core.EventBatch) (w : World) :
  posts (effects (ExportEvents d batch w)) `prefix_of`
  map (request d) (List.filter (qualifies d) (core.Events batch)).
Proof. apply range_Events_posts_prefix. Qed.

(** ** createMsgFromEvent *)

(** X16: when no label holds a ['%'], the text is one line per label,
    the last label first, followed by the seven fields of the event
    under their captions; the fields are copied as they are, whatever
    bytes they hold.  Nil and empty label lists give the seven fields
    alone. *)
Theorem createMsgFromEvent_verbatim (labels : slice string)
    (event : v1.Event) :
  Forall (fun label => ~ In "%"%char (list_ascii_of_string label))
         (elems labels) ->
  createMsgFromEvent labels event =
  Some {| MsgType := "text";
          Text := {| Content :=
            lines (rev (elems labels)) +:+
            "Level:" +:+ v1.Type_ event +:+ " " +:+ nl +:+
            "Kind:" +:+ v1.Kind (v1.InvolvedObject event) +:+ " " +:+ nl +:+
            "Namespace:" +:+ v1.Namespace event +:+ " " +:+ nl +:+
            "Name:" +:+ v1.Name event +:+ " " +:+ nl +:+
            "Reason:" +:+ v1.Reason event +:+ " " +:+ nl +:+
            "Timestamp:" +:+ metav1.Time_String (v1.LastTimestamp event) +:+
              " " +:+ nl +:+
            "Message:" +:+ v1.Message event |} |}.
Proof.
  intros Hlabels. rewrite createMsgFromEvent_plain; [reflexivity |].
  apply forallb_forall. intros label Hin.
  rewrite Forall_forall in Hlabels. specialize (Hlabels label).
  assert (Hplain : forall s,
    ~ In "%"%char (list_ascii_of_string s) -> plain s = true).
  { induction s as [| c s IHs]; [reflexivity |]. cbn. intros Hnot.
    destruct (Ascii.eqb_spec c "%"%char) as [-> | _];
      [exfalso; apply Hnot; left; reflexivity |].
    apply IHs. intros H. apply Hnot. right. exact H. }
  apply Hplain, Hlabels. apply list_elem_of_In. exact Hin.
Qed.

End Coverage.

(** ** The properties above on sample inputs *)

(** X1, at the value default,kube-system. *)
Lemma getValues_pieces_witness :
  exists entry entries,
    getValues (Some ["default,kube-system"]) =
      Returned (Some (entry :: entries)) /\
    String.concat "," (entry :: entries) = "default,kube-system" /\
    Forall (fun piece => ~ In ","%char (list_ascii_of_string piece))
           (entry :: entries) /\
    length (entry :: entries) =
      S (length (List.filter (Ascii.eqb ","%char)
                   (list_ascii_of_string "default,kube-system"))).
Proof. apply (getValues_pieces "default,kube-system" []). discriminate. Defined.

(** X3, at a URI without a token. *)
Lemma NewDingTalkSink_error_iff_witness :
  len (url.Query no_token_uri !! "access_token") = 0 /\
  NewDingTalkSink no_token_uri =
  Returned (None,
            Some {| Error := "you must provide dingtalk bot access_token" |}).
Proof.
  split; [reflexivity |].
  apply (proj1 (NewDingTalkSink_error_iff no_token_uri)). reflexivity.
Defined.

(** X4, at a URI with a token and both lists. *)
Lemma NewDingTalkSink_returns_iff_witness :
  1 <= len (url.Query info_uri !! "access_token") /\
  exists d, NewDingTalkSink info_uri = Returned (Some d, None).
Proof.
  assert (Htoken : 1 <= len (url.Query info_uri !! "access_token"))
    by (vm_compute; discriminate).
  split; [exact Htoken |].
  apply (proj1 (NewDingTalkSink_returns_iff info_uri Htoken)).
  split; vm_compute; discriminate.
Defined.

(** X5, at the sink built from [info_uri]. *)
Lemma NewDingTalkSink_fields_witness :
  NewDingTalkSink info_uri = Returned (Some info_sink, None) /\
  Endpoint info_sink = "oapi.dingtalk.com/robot/send" /\
  Labels info_sink = None.
Proof.
  split; [reflexivity |].
  destruct (NewDingTalkSink_fields info_uri info_sink None eq_refl)
    as (Hendpoint & _ & Hlabels).
  split; [exact Hendpoint | exact Hlabels].
Defined.

(** X6, at the sink built from [info_uri]. *)
Lemma NewDingTalkSink_invariant_witness :
  NewDingTalkSink info_uri = Returned (Some info_sink, None) /\
  0 <= Level info_sink <= 2.
Proof.
  split; [reflexivity |].
  apply (NewDingTalkSink_invariant info_uri info_sink None eq_refl).
Defined.

(** X7, at the sink built from [info_uri] and a namespace outside its
    allow-list. *)
Lemma NewDingTalkSink_allow_lists_witness :
  NewDingTalkSink info_uri = Returned (Some info_sink, None) /\
  (skipped (Namespaces info_sink) "kube-system" = true <->
   1 <= len (Namespaces info_sink) /\
   "kube-system" ∉ elems (Namespaces info_sink)).
Proof.
  split; [reflexivity |].
  apply (NewDingTalkSink_allow_lists info_uri info_sink None "kube-system"
           eq_refl).
Defined.

(** X8, at the sink built from [normal_uri] and a Pod event in the
    namespace default. *)
Lemma NewDingTalkSink_then_Ding_witness :
  NewDingTalkSink normal_uri = Returned (Some normal_sink, None) /\
  (posts (effects (Ding (rt := server (status 200)) normal_sink
                     pod_warning 0%nat)) =
     [request (rt := server (status 200)) normal_sink pod_warning] <->
   ("default" = "" \/ v1.Namespace pod_warning ∈ strings_Split "default" ","%char) /\
   ("Pod" = "" \/
    v1.Kind (v1.InvolvedObject pod_warning) ∈ strings_Split "Pod" ","%char)).
Proof.
  split; [reflexivity |].
  apply (NewDingTalkSink_then_Ding (rt := server (status 200))
           normal_uri normal_sink None "default" "Pod" [] [] pod_warning 0%nat
           eq_refl eq_refl eq_refl).
Defined.

(** X9, at the sink built from [normal_uri], whose level is "Normal". *)
Lemma NewDingTalkSink_severity_gate_witness :
  NewDingTalkSink normal_uri = Returned (Some normal_sink, None) /\
  forall level, isEventLevelDangerous normal_sink level = true <->
                level = "Warning" \/ level = "Normal".
Proof.
  split; [reflexivity |].
  destruct (NewDingTalkSink_severity_gate normal_uri normal_sink None eq_refl)
    as (_ & _ & Hnormal).
  apply (Hnormal []). reflexivity.
Defined.

(** X10, at a destination that answers 500. *)
Lemma Ding_returns_iff_witness :
  http_Post (Runtime := server (status 500))
    (target (rt := server (status 500)) open_sink) CONTENT_TYPE_JSON
    (payload (rt := server (status 500)) open_sink pod_warning) 0%nat =
    (status 500, 1%nat) /\
  outcome (Ding (rt := server (status 500)) open_sink pod_warning 0%nat) =
    Panicked NilDereference.
Proof.
  split; [reflexivity |].
  destruct (Ding_returns_iff (rt := server (status 500)) open_sink pod_warning
              0%nat 1%nat (Some {| http.StatusCode := 500 |}) None eq_refl)
    as (_ & Hpanic & _).
  apply Hpanic. discriminate.
Defined.

(** X12, at a destination that answers 200. *)
Lemma ExportEvents_healthy_witness :
  outcome (ExportEvents (rt := server (status 200)) open_sink
             (batch_of [pod_warning; node_normal; node_warning]) 0%nat) =
  Returned tt.
Proof.
  apply (ExportEvents_healthy (rt := server (status 200))).
  intros u c b w0. exists {| http.StatusCode := 200 |}. split; reflexivity.
Defined.

(** X13, at a batch of one Normal event under the level 2 and a
    destination that cannot be reached. *)
Lemma ExportEvents_below_level_witness :
  ExportEvents (rt := server unreachable) open_sink
    (batch_of [node_normal]) 0%nat =
  idle (rt := server unreachable) 0%nat.
Proof.
  apply (ExportEvents_below_level (rt := server unreachable)).
  repeat constructor.
Defined.

(** X14, at a batch of three events cut after the first. *)
Lemma ExportEvents_app_witness :
  ExportEvents (rt := server (status 200)) open_sink
    (batch_of [pod_warning; node_normal; node_warning]) 0%nat =
  (ExportEvents (rt := server (status 200)) open_sink (batch_of [pod_warning]);;
   ExportEvents (rt := server (status 200)) open_sink
     (batch_of [node_normal; node_warning])) 0%nat.
Proof.
  apply (ExportEvents_app (rt := server (status 200))). reflexivity.
Defined.

(** X16, at the two labels of the specification's example. *)
Lemma createMsgFromEvent_verbatim_witness :
  exists text,
    createMsgFromEvent (rt := server (status 200))
      (Some ["cluster-1"; "env-prod"]) pod_warning =
    Some {| MsgType := "text";
            Text := {| Content :=
              "env-prod" +:+ nl +:+ "cluster-1" +:+ nl +:+ text |} |}.
Proof.
  eexists.
  rewrite (createMsgFromEvent_verbatim (rt := server (status 200))
             (Some ["cluster-1"; "env-prod"]) pod_warning).
  - reflexivity.
  - repeat constructor; intros H; vm_compute in H; intuition discriminate.
Defined.
